(** * Windows options of wails: v2/pkg/options/windows/windows.go

    A shallow embedding of the Go package [windows] (the option records,
    the enumerated constants, the colour helper [RGB] and the constructor
    [DefaultMessages]) together with the properties its specification
    states about them.

    Go's fixed-width integers are integers of [Z] with the wrap-around of
    each conversion and shift written out; Go's heap is a finite map from
    addresses to objects, threaded through a small monad with a failure
    branch for run-time panics. *)

From Stdlib Require Import ZArith Lia List Bool String Ascii.
From stdpp Require Import gmap strings.

Local Open Scope Z_scope.

(** ** Machine integers *)

Module GoInt.

(** Values of an unsigned type of [w] bits. *)
Definition in_unsigned (w z : Z) : Prop := 0 <= z < 2 ^ w.

(** Values of a signed type of [w] bits. *)
Definition in_signed (w z : Z) : Prop := - 2 ^ (w - 1) <= z < 2 ^ (w - 1).

(** Two's complement reduction to a signed type of [w] bits: what a Go
    conversion or an arithmetic operation of that type keeps. *)
Definition wrap_signed (w z : Z) : Z :=
  (z + 2 ^ (w - 1)) mod 2 ^ w - 2 ^ (w - 1).

Definition uint8 (z : Z) : Prop := in_unsigned 8 z.
Definition uint32 (z : Z) : Prop := in_unsigned 32 z.
Definition int32 (z : Z) : Prop := in_signed 32 z.

(** [int32(x)]: conversion to int32. *)
Definition to_int32 (z : Z) : Z := wrap_signed 32 z.

(** [x << n] at type int32, for a constant count [n]. *)
Definition shl_int32 (x n : Z) : Z := wrap_signed 32 (Z.shiftl x n).

(** [x | y] at type int32: the bitwise or of two's complement numbers,
    which is [Z.lor] on their signed values. *)
Definition or_int32 (x y : Z) : Z := Z.lor x y.

End GoInt.

Import GoInt.

(** ** The colour helper *)

(** [func RGB(r, g, b uint8) int32], statement by statement. *)
Definition RGB (r g b : Z) : Z :=
  let col := to_int32 b in
  let col := or_int32 (shl_int32 col 8) (to_int32 g) in
  let col := or_int32 (shl_int32 col 8) (to_int32 r) in
  col.

(** The formula of the specification, [(b<<16) | (g<<8) | r], on unbounded
    integers. *)
Definition packed_BGR (r g b : Z) : Z :=
  Z.lor (Z.lor (Z.shiftl b 16) (Z.shiftl g 8)) r.

(** [RGB] has no statement that reads or writes memory; the three channels
    of a packed colour are read back with a mask and a shift. *)
Definition red_of (col : Z) : Z := Z.land col 0xFF.
Definition green_of (col : Z) : Z := Z.land (Z.shiftr col 8) 0xFF.
Definition blue_of (col : Z) : Z := Z.land (Z.shiftr col 16) 0xFF.

(** ** Enumerated constants *)

(** [type Theme int] *)
Definition Theme : Type := Z.

Definition SystemDefault : Theme := 0.
Definition Dark : Theme := 1.
Definition Light : Theme := 2.

(** The constants declared at type [Theme], in declaration order. *)
Definition Theme_constants : list (string * Theme) :=
  [("SystemDefault"%string, SystemDefault);
   ("Dark"%string, Dark);
   ("Light"%string, Light)].

(** [type BackdropType int32] *)
Definition BackdropType : Type := Z.

(** The backdrop constants live in a module of their own: the Go constant
    [None] would otherwise hide the constructor of [option]. *)
Module Backdrop.
Definition Auto : BackdropType := 0.
Definition None : BackdropType := 1.
Definition Mica : BackdropType := 2.
Definition Acrylic : BackdropType := 3.
Definition Tabbed : BackdropType := 4.
End Backdrop.

(** The constants declared at type [BackdropType], in declaration order. *)
Definition BackdropType_constants : list (string * BackdropType) :=
  [("Auto"%string, Backdrop.Auto);
   ("None"%string, Backdrop.None);
   ("Mica"%string, Backdrop.Mica);
   ("Acrylic"%string, Backdrop.Acrylic);
   ("Tabbed"%string, Backdrop.Tabbed)].

(** ** DLL search flags *)

(** The LoadLibraryEx flags of the imported package
    [golang.org/x/sys/windows].  That package is a dependency, not part of
    this one; each value is the one windows.go records in the comment that
    follows the constant it re-exports. *)
Module windows.
Definition DONT_RESOLVE_DLL_REFERENCES : Z := 0x1.
Definition LOAD_LIBRARY_AS_DATAFILE : Z := 0x2.
Definition LOAD_WITH_ALTERED_SEARCH_PATH : Z := 0x8.
Definition LOAD_IGNORE_CODE_AUTHZ_LEVEL : Z := 0x10.
Definition LOAD_LIBRARY_AS_IMAGE_RESOURCE : Z := 0x20.
Definition LOAD_LIBRARY_AS_DATAFILE_EXCLUSIVE : Z := 0x40.
Definition LOAD_LIBRARY_REQUIRE_SIGNED_TARGET : Z := 0x80.
Definition LOAD_LIBRARY_SEARCH_DLL_LOAD_DIR : Z := 0x100.
Definition LOAD_LIBRARY_SEARCH_APPLICATION_DIR : Z := 0x200.
Definition LOAD_LIBRARY_SEARCH_USER_DIRS : Z := 0x400.
Definition LOAD_LIBRARY_SEARCH_SYSTEM32 : Z := 0x800.
Definition LOAD_LIBRARY_SEARCH_DEFAULT_DIRS : Z := 0x1000.
Definition LOAD_LIBRARY_SAFE_CURRENT_DIRS : Z := 0x2000.
Definition LOAD_LIBRARY_SEARCH_SYSTEM32_NO_FORWARDER : Z := 0x4000.
Definition LOAD_LIBRARY_OS_INTEGRITY_CONTINUITY : Z := 0x8000.
End windows.

(** The constants of windows.go, all of type uint32. *)
Definition DLLSearchDefault : Z := 0.
Definition DLLSearchDontResolveDllReferences : Z := windows.DONT_RESOLVE_DLL_REFERENCES.
Definition DLLSearchAsDataFile : Z := windows.LOAD_LIBRARY_AS_DATAFILE.
Definition DLLSearchWithAlteredPath : Z := windows.LOAD_WITH_ALTERED_SEARCH_PATH.
Definition DLLSearchIgnoreCodeAuthzLevel : Z := windows.LOAD_IGNORE_CODE_AUTHZ_LEVEL.
Definition DLLSearchAsImageResource : Z := windows.LOAD_LIBRARY_AS_IMAGE_RESOURCE.
Definition DLLSearchAsDataFileExclusive : Z := windows.LOAD_LIBRARY_AS_DATAFILE_EXCLUSIVE.
Definition DLLSearchRequireSignedTarget : Z := windows.LOAD_LIBRARY_REQUIRE_SIGNED_TARGET.
Definition DLLSearchDllLoadDir : Z := windows.LOAD_LIBRARY_SEARCH_DLL_LOAD_DIR.
Definition DLLSearchApplicationDir : Z := windows.LOAD_LIBRARY_SEARCH_APPLICATION_DIR.
Definition DLLSearchUserDirs : Z := windows.LOAD_LIBRARY_SEARCH_USER_DIRS.
Definition DLLSearchSystem32 : Z := windows.LOAD_LIBRARY_SEARCH_SYSTEM32.
Definition DLLSearchDefaultDirs : Z := windows.LOAD_LIBRARY_SEARCH_DEFAULT_DIRS.
Definition DLLSearchSafeCurrentDirs : Z := windows.LOAD_LIBRARY_SAFE_CURRENT_DIRS.
Definition DLLSearchSystem32NoForwarder : Z := windows.LOAD_LIBRARY_SEARCH_SYSTEM32_NO_FORWARDER.
Definition DLLSearchOsIntegrityContinuity : Z := windows.LOAD_LIBRARY_OS_INTEGRITY_CONTINUITY.

(** The names of the sixteen constants, so that sets of flags can be
    spoken of. *)
Inductive DLLSearchFlag : Set :=
| FDefault
| FDontResolveDllReferences
| FAsDataFile
| FWithAlteredPath
| FIgnoreCodeAuthzLevel
| FAsImageResource
| FAsDataFileExclusive
| FRequireSignedTarget
| FDllLoadDir
| FApplicationDir
| FUserDirs
| FSystem32
| FDefaultDirs
| FSafeCurrentDirs
| FSystem32NoForwarder
| FOsIntegrityContinuity.

Definition flag_value (f : DLLSearchFlag) : Z :=
  match f with
  | FDefault => DLLSearchDefault
  | FDontResolveDllReferences => DLLSearchDontResolveDllReferences
  | FAsDataFile => DLLSearchAsDataFile
  | FWithAlteredPath => DLLSearchWithAlteredPath
  | FIgnoreCodeAuthzLevel => DLLSearchIgnoreCodeAuthzLevel
  | FAsImageResource => DLLSearchAsImageResource
  | FAsDataFileExclusive => DLLSearchAsDataFileExclusive
  | FRequireSignedTarget => DLLSearchRequireSignedTarget
  | FDllLoadDir => DLLSearchDllLoadDir
  | FApplicationDir => DLLSearchApplicationDir
  | FUserDirs => DLLSearchUserDirs
  | FSystem32 => DLLSearchSystem32
  | FDefaultDirs => DLLSearchDefaultDirs
  | FSafeCurrentDirs => DLLSearchSafeCurrentDirs
  | FSystem32NoForwarder => DLLSearchSystem32NoForwarder
  | FOsIntegrityContinuity => DLLSearchOsIntegrityContinuity
  end.

Definition all_flags : list DLLSearchFlag :=
  [FDefault; FDontResolveDllReferences; FAsDataFile; FWithAlteredPath;
   FIgnoreCodeAuthzLevel; FAsImageResource; FAsDataFileExclusive;
   FRequireSignedTarget; FDllLoadDir; FApplicationDir; FUserDirs; FSystem32;
   FDefaultDirs; FSafeCurrentDirs; FSystem32NoForwarder;
   FOsIntegrityContinuity].

(** The fifteen flags other than [DLLSearchDefault]. *)
Definition non_default_flags : list DLLSearchFlag := tail all_flags.

#[global] Instance DLLSearchFlag_eq_dec : EqDecision DLLSearchFlag.
Proof. solve_decision. Defined.

(** Bit position of a flag in the mask: the index of the highest set bit
    of its value (the only one, for a value with a single bit). *)
Definition flag_bit (f : DLLSearchFlag) : Z := Z.log2 (flag_value f).

(** [f1 | f2 | ...] at type uint32, as in the example of the field
    DLLSearchPaths: [DLLSearchApplicationDir | DLLSearchSystem32]. *)
Definition combine_flags (fs : list DLLSearchFlag) : Z :=
  fold_right (fun f acc => Z.lor (flag_value f) acc) DLLSearchDefault fs.

(** Whether the mask [m] has the bit of flag [f]. *)
Definition has_flag (m : Z) (f : DLLSearchFlag) : bool :=
  negb (Z.eqb (Z.land m (flag_value f)) 0).

(** ** Records *)

(** [float64]: carried as its IEEE 754 bit pattern; the package stores
    such values and never computes with them. *)
Definition float64 : Type := Z.

(** Addresses of heap objects; a Go pointer is [nil] or an address. *)
Definition addr : Type := positive.
Definition pointer : Type := option addr.

(** [func()]: [nil] or a reference to code the package never calls. *)
Definition func : Type := option positive.

Record Messages : Type := {
  InstallationRequired : string;
  UpdateRequired : string;
  MissingRequirements : string;
  Webview2NotInstalled : string;
  Error : string;
  FailedToInstall : string;
  DownloadPage : string;
  PressOKToInstall : string;
  ContactAdmin : string;
  InvalidFixedWebview2 : string;
  WebView2ProcessCrash : string
}.

(** The fields of a catalog with their names, in declaration order. *)
Definition Messages_fields (m : Messages) : list (string * string) :=
  [("InstallationRequired", InstallationRequired m);
   ("UpdateRequired", UpdateRequired m);
   ("MissingRequirements", MissingRequirements m);
   ("Webview2NotInstalled", Webview2NotInstalled m);
   ("Error", Error m);
   ("FailedToInstall", FailedToInstall m);
   ("DownloadPage", DownloadPage m);
   ("PressOKToInstall", PressOKToInstall m);
   ("ContactAdmin", ContactAdmin m);
   ("InvalidFixedWebview2", InvalidFixedWebview2 m);
   ("WebView2ProcessCrash", WebView2ProcessCrash m)]%string.

Record ThemeSettings : Type := {
  DarkModeTitleBar : Z;
  DarkModeTitleBarInactive : Z;
  DarkModeTitleText : Z;
  DarkModeTitleTextInactive : Z;
  DarkModeBorder : Z;
  DarkModeBorderInactive : Z;
  LightModeTitleBar : Z;
  LightModeTitleBarInactive : Z;
  LightModeTitleText : Z;
  LightModeTitleTextInactive : Z;
  LightModeBorder : Z;
  LightModeBorderInactive : Z
}.

(** [Options]: three of its fields are named after their types, so the
    record has a module of its own. *)
Module Options.
Record t : Type := {
  WebviewIsTransparent : bool;
  WindowIsTranslucent : bool;
  DisableWindowIcon : bool;
  IsZoomControlEnabled : bool;
  ZoomFactor : float64;
  DisablePinchZoom : bool;
  DisableFramelessWindowDecorations : bool;
  WebviewUserDataPath : string;
  WebviewBrowserPath : string;
  Theme : Theme;
  CustomTheme : pointer;
  BackdropType : BackdropType;
  Messages : pointer;
  ResizeDebounceMS : Z;
  OnSuspend : func;
  OnResume : func;
  WebviewGpuIsDisabled : bool;
  WebviewDisableRendererCodeIntegrity : bool;
  EnableSwipeGestures : bool;
  WindowClassName : string;
  DLLSearchPaths : Z
}.
End Options.

(** ** The heap and the monad of Go computations *)

Inductive object : Type :=
| ObjMessages (m : Messages)
| ObjThemeSettings (t : ThemeSettings)
| ObjOptions (o : Options.t).

Abbreviation heap := (gmap addr object).

(** A call returns a value and the heap it leaves, or panics. *)
Inductive outcome (A : Type) : Type :=
| Returned (a : A) (h : heap)
| Panicked (msg : string).

Arguments Returned {A} a h.
Arguments Panicked {A} msg.

Definition Go (A : Type) : Type := heap -> outcome A.

#[global] Instance Go_ret : MRet Go :=
  fun A (a : A) h => Returned a h.

#[global] Instance Go_bind : MBind Go :=
  fun A B (k : A -> Go B) (c : Go A) h =>
    match c h with
    | Returned a h' => k a h'
    | Panicked msg => Panicked msg
    end.

(** [&T{...}]: allocation of a composite literal at an unused address. *)
Definition new (o : object) : Go addr :=
  fun h => let p := fresh (dom h) in Returned p (<[p := o]> h).

(** [*p] for [p] of type [*Messages]: a nil or dangling pointer panics. *)
Definition load_Messages (p : pointer) : Go Messages :=
  fun h =>
    match p with
    | None => Panicked "nil pointer dereference"
    | Some a =>
        match h !! a with
        | Some (ObjMessages m) => Returned m h
        | _ => Panicked "invalid memory address"
        end
    end.

(** The value a call returned, if it returned. *)
Definition result {A : Type} (r : outcome A) : option A :=
  match r with Returned a _ => Some a | Panicked _ => None end.

(** ** The operations of the package *)

(** A call of [RGB]: the function has only the local variable [col], so
    the call returns the packed value and leaves the heap as it found it. *)
Definition call_RGB (r g b : Z) : Go Z := mret (RGB r g b).

(** The composite literal [Messages{...}] of [DefaultMessages]. *)
Definition Messages_literal : Messages := {|
  InstallationRequired := "The WebView2 runtime is required. Press Ok to download and install. Note: The installer will download silently so please wait.";
  UpdateRequired := "The WebView2 runtime needs updating. Press Ok to download and install. Note: The installer will download silently so please wait.";
  MissingRequirements := "Missing Requirements";
  Webview2NotInstalled := "WebView2 runtime not installed";
  Error := "Error";
  FailedToInstall := "The runtime failed to install correctly. Please try again.";
  DownloadPage := "This application requires the WebView2 runtime. Press OK to open the download page. Minimum version required: ";
  PressOKToInstall := "Press Ok to install.";
  ContactAdmin := "The WebView2 runtime is required to run this application. Please contact your system administrator.";
  InvalidFixedWebview2 := "The WebView2 runtime is manually specified, but It is not valid. Check minimum required version and webview2 path.";
  WebView2ProcessCrash := "The WebView2 process crashed and the application needs to be restarted."
|}.

(** [func DefaultMessages() *Messages]: the address of a new object
    holding the literal. *)
Definition DefaultMessages : Go addr := new (ObjMessages Messages_literal).

(** The catalog a caller reads through the pointer it got. *)
Definition default_catalog : Go Messages :=
  p ← DefaultMessages; load_Messages (Some p).

(** Two calls one after the other, and the catalogs read through the two
    pointers once both have returned. *)
Definition two_catalogs : Go (Messages * Messages) :=
  p1 ← DefaultMessages;
  p2 ← DefaultMessages;
  m1 ← load_Messages (Some p1);
  m2 ← load_Messages (Some p2);
  mret (m1, m2).

(** An options value no constant of the package describes: a theme and a
    backdrop outside their enumerations, a negative zoom factor (the bit
    pattern of -1.0), pointers left nil, and a search mask with bits that
    no named flag has. *)
Definition unchecked_options : Options.t := {|
  Options.WebviewIsTransparent := true;
  Options.WindowIsTranslucent := true;
  Options.DisableWindowIcon := false;
  Options.IsZoomControlEnabled := false;
  Options.ZoomFactor := 0xBFF0000000000000;
  Options.DisablePinchZoom := false;
  Options.DisableFramelessWindowDecorations := false;
  Options.WebviewUserDataPath := "?";
  Options.WebviewBrowserPath := EmptyString;
  Options.Theme := 99;
  Options.CustomTheme := None;
  Options.BackdropType := -7;
  Options.Messages := None;
  Options.ResizeDebounceMS := 65535;
  Options.OnSuspend := None;
  Options.OnResume := None;
  Options.WebviewGpuIsDisabled := false;
  Options.WebviewDisableRendererCodeIntegrity := true;
  Options.EnableSwipeGestures := false;
  Options.WindowClassName := EmptyString;
  Options.DLLSearchPaths := 0x80000004
|}.

(** ** Callers *)

(** The arithmetic sum [f1 + f2 + ...] of the values of a list of flags, on
    unbounded integers, for a caller that adds flags where the package's
    comment says to or them.  Go adds at type uint32 and wraps at 2^32;
    the sum of constants taken at most once each stays below that. *)
Definition sum_flags (fs : list DLLSearchFlag) : Z :=
  fold_right (fun f acc => flag_value f + acc) 0 fs.

(** [m | f] and [m &^ f] at type uint32: setting and clearing the bit of a
    flag in a mask. *)
Definition set_flag (m : Z) (f : DLLSearchFlag) : Z := Z.lor m (flag_value f).
Definition clear_flag (m : Z) (f : DLLSearchFlag) : Z :=
  Z.ldiff m (flag_value f).

(** [*p = m] for [p] of type [*Messages]: a nil or dangling pointer
    panics. *)
Definition store_Messages (p : pointer) (m : Messages) : Go unit :=
  fun h =>
    match p with
    | None => Panicked "nil pointer dereference"
    | Some a =>
        match h !! a with
        | Some (ObjMessages _) => Returned tt (<[a := ObjMessages m]> h)
        | _ => Panicked "invalid memory address"
        end
    end.

(** The catalog [m] with its field [Error] replaced. *)
Definition with_Error (m : Messages) (s : string) : Messages := {|
  InstallationRequired := InstallationRequired m;
  UpdateRequired := UpdateRequired m;
  MissingRequirements := MissingRequirements m;
  Webview2NotInstalled := Webview2NotInstalled m;
  Error := s;
  FailedToInstall := FailedToInstall m;
  DownloadPage := DownloadPage m;
  PressOKToInstall := PressOKToInstall m;
  ContactAdmin := ContactAdmin m;
  InvalidFixedWebview2 := InvalidFixedWebview2 m;
  WebView2ProcessCrash := WebView2ProcessCrash m
|}.

(** [p.Error = s] *)
Definition set_Error (p : pointer) (s : string) : Go unit :=
  m ← load_Messages p; store_Messages p (with_Error m s).

(** A caller that takes two catalogs, overrides one message of the first,
    asks for a third catalog, and reads all three. *)
Definition override_one (s : string)
  : Go (addr * addr * addr * Messages * Messages * Messages) :=
  p1 ← DefaultMessages;
  p2 ← DefaultMessages;
  _ ← set_Error (Some p1) s;
  p3 ← DefaultMessages;
  m1 ← load_Messages (Some p1);
  m2 ← load_Messages (Some p2);
  m3 ← load_Messages (Some p3);
  mret (p1, p2, p3, m1, m2, m3).

(** * Properties *)

(** ** Machine integers *)

Section IntegerFacts.

Lemma wrap_signed_id (w z : Z) :
  0 < w -> in_signed w z -> wrap_signed w z = z.
Proof.
  unfold in_signed, wrap_signed. intros Hw Hz.
  assert (Hp : 2 ^ w = 2 * 2 ^ (w - 1)).
  { replace w with (Z.succ (w - 1)) at 1 by lia. apply Z.pow_succ_r. lia. }
  rewrite Z.mod_small; lia.
Qed.

Lemma to_int32_id (z : Z) : int32 z -> to_int32 z = z.
Proof. intros Hz. apply wrap_signed_id; [lia | exact Hz]. Qed.

Lemma uint8_int32 (z : Z) : uint8 z -> int32 z.
Proof. unfold uint8, int32, in_unsigned, in_signed. simpl. lia. Qed.

(** Or-ing a value below [2^n] into a value shifted left by [n] adds it:
    the two have no bit in common. *)
Lemma lor_shiftl_low (hi lo n : Z) :
  0 <= n -> 0 <= lo < 2 ^ n ->
  Z.lor (Z.shiftl hi n) lo = hi * 2 ^ n + lo.
Proof.
  intros Hn Hlo.
  assert (Hdisj : Z.land (Z.shiftl hi n) lo = 0).
  { apply Z.bits_inj'. intros i Hi.
    rewrite Z.land_spec, Z.bits_0.
    destruct (Z.ltb_spec i n) as [Hlt | Hge].
    - rewrite Z.shiftl_spec_low by assumption. reflexivity.
    - rewrite <- (Z.mod_small lo (2 ^ n)) by assumption.
      rewrite Z.mod_pow2_bits_high by lia. apply andb_false_r. }
  rewrite <- Z.lxor_lor by assumption.
  rewrite <- Z.add_nocarry_lxor by assumption.
  rewrite Z.shiftl_mul_pow2 by assumption. reflexivity.
Qed.

Lemma shl_int32_small (x n : Z) :
  0 <= n -> int32 (x * 2 ^ n) -> shl_int32 x n = x * 2 ^ n.
Proof.
  intros Hn Hx. unfold shl_int32.
  rewrite Z.shiftl_mul_pow2 by assumption.
  apply wrap_signed_id; [lia | exact Hx].
Qed.

End IntegerFacts.

(** ** RGB *)

Section Packing.

Variables r g b : Z.
Hypothesis Hr : uint8 r.
Hypothesis Hg : uint8 g.
Hypothesis Hb : uint8 b.

(** On channels of 8 bits no conversion or shift of [RGB] wraps, and the
    result is the base-256 number with digits b, g, r. *)
Lemma RGB_digits : RGB r g b = b * 65536 + g * 256 + r.
Proof.
  unfold uint8, in_unsigned in Hr, Hg, Hb. simpl in Hr, Hg, Hb.
  unfold RGB, or_int32.
  rewrite !to_int32_id
    by (apply uint8_int32; unfold uint8, in_unsigned; simpl; lia).
  rewrite (shl_int32_small b 8)
    by (unfold int32, in_signed; simpl; lia).
  rewrite <- (Z.shiftl_mul_pow2 b 8) by lia.
  rewrite (lor_shiftl_low b g 8) by (simpl; lia).
  rewrite shl_int32_small by (unfold int32, in_signed; simpl; lia).
  rewrite <- (Z.shiftl_mul_pow2 _ 8) by lia.
  rewrite lor_shiftl_low by (simpl; lia).
  change (2 ^ 8) with 256. lia.
Qed.

Lemma packed_BGR_digits : packed_BGR r g b = b * 65536 + g * 256 + r.
Proof.
  unfold uint8, in_unsigned in Hr, Hg, Hb. simpl in Hr, Hg, Hb.
  unfold packed_BGR.
  replace (Z.shiftl b 16) with (Z.shiftl (Z.shiftl b 8) 8)
    by (rewrite Z.shiftl_shiftl by lia; reflexivity).
  rewrite <- Z.shiftl_lor.
  rewrite (lor_shiftl_low b g 8) by (simpl; lia).
  rewrite lor_shiftl_low by (simpl; lia).
  change (2 ^ 8) with 256. lia.
Qed.

Lemma RGB_red_of : red_of (RGB r g b) = r.
Proof.
  unfold uint8, in_unsigned in Hr, Hg, Hb. simpl in Hr, Hg, Hb.
  rewrite RGB_digits. unfold red_of.
  change 0xFF with (Z.ones 8). rewrite Z.land_ones by lia.
  change (2 ^ 8) with 256.
  replace (b * 65536 + g * 256 + r) with (r + (b * 256 + g) * 256) by lia.
  rewrite Z.mod_add by lia. apply Z.mod_small. lia.
Qed.

Lemma RGB_green_of : green_of (RGB r g b) = g.
Proof.
  unfold uint8, in_unsigned in Hr, Hg, Hb. simpl in Hr, Hg, Hb.
  rewrite RGB_digits. unfold green_of.
  change 0xFF with (Z.ones 8). rewrite Z.land_ones by lia.
  rewrite Z.shiftr_div_pow2 by lia.
  change (2 ^ 8) with 256.
  replace (b * 65536 + g * 256 + r) with (r + (b * 256 + g) * 256) by lia.
  rewrite Z.div_add by lia. rewrite (Z.div_small r 256) by lia.
  rewrite Z.add_0_l, Z.add_comm, Z.mod_add by lia.
  apply Z.mod_small. lia.
Qed.

Lemma RGB_blue_of : blue_of (RGB r g b) = b.
Proof.
  unfold uint8, in_unsigned in Hr, Hg, Hb. simpl in Hr, Hg, Hb.
  rewrite RGB_digits. unfold blue_of.
  change 0xFF with (Z.ones 8). rewrite Z.land_ones by lia.
  rewrite Z.shiftr_div_pow2 by lia.
  change (2 ^ 16) with 65536. change (2 ^ 8) with 256.
  replace (b * 65536 + g * 256 + r) with ((g * 256 + r) + b * 65536) by lia.
  rewrite Z.div_add by lia. rewrite (Z.div_small (g * 256 + r)) by lia.
  rewrite Z.add_0_l. apply Z.mod_small. lia.
Qed.

End Packing.

Lemma uint8_high_bits (z i : Z) : uint8 z -> 8 <= i -> Z.testbit z i = false.
Proof.
  unfold uint8, in_unsigned. intros Hz Hi.
  rewrite <- (Z.mod_small z (2 ^ 8)) by assumption.
  apply Z.mod_pow2_bits_high. lia.
Qed.

(** Bit [i] of the specification's formula, for channels of 8 bits. *)
Lemma packed_BGR_bits (r g b i : Z) :
  uint8 r -> uint8 g -> uint8 b -> 0 <= i ->
  Z.testbit (packed_BGR r g b) i =
    if i <? 8 then Z.testbit r i
    else if i <? 16 then Z.testbit g (i - 8)
    else Z.testbit b (i - 16).
Proof.
  intros Hr Hg Hb Hi. unfold packed_BGR.
  rewrite !Z.lor_spec, !Z.shiftl_spec by assumption.
  destruct (Z.ltb_spec i 8) as [H8 | H8].
  - rewrite (Z.testbit_neg_r b), (Z.testbit_neg_r g) by lia. reflexivity.
  - rewrite (uint8_high_bits r i) by assumption.
    destruct (Z.ltb_spec i 16) as [H16 | H16].
    + rewrite (Z.testbit_neg_r b) by lia. rewrite orb_false_r. reflexivity.
    + rewrite (uint8_high_bits g (i - 8)) by (assumption || lia).
      rewrite !orb_false_r. reflexivity.
Qed.

(** C1. For channels r, g, b of 8 bits, RGB returns the 32-bit integer
    (b<<16) | (g<<8) | r: red in bits 0-7, green in bits 8-15, blue in bits
    16-23, every bit from 24 up zero, hence a non-negative value; and the
    four sample colours of the specification pack to 0x000000FF,
    0x0000FF00, 0x00FF0000 and 0x00302010. *)
Theorem RGB_layout (r g b : Z) :
  uint8 r -> uint8 g -> uint8 b ->
  RGB r g b = Z.lor (Z.lor (Z.shiftl b 16) (Z.shiftl g 8)) r
  /\ int32 (RGB r g b)
  /\ (forall i, 0 <= i < 8 -> Z.testbit (RGB r g b) i = Z.testbit r i)
  /\ (forall i, 8 <= i < 16 -> Z.testbit (RGB r g b) i = Z.testbit g (i - 8))
  /\ (forall i, 16 <= i < 24 -> Z.testbit (RGB r g b) i = Z.testbit b (i - 16))
  /\ (forall i, 24 <= i -> Z.testbit (RGB r g b) i = false)
  /\ 0 <= RGB r g b
  /\ RGB 255 0 0 = 0x000000FF
  /\ RGB 0 255 0 = 0x0000FF00
  /\ RGB 0 0 255 = 0x00FF0000
  /\ RGB 16 32 48 = 0x00302010.
Proof.
  intros Hr Hg Hb.
  assert (Heq : RGB r g b = packed_BGR r g b).
  { rewrite RGB_digits, packed_BGR_digits by assumption. reflexivity. }
  assert (Hdig := RGB_digits r g b Hr Hg Hb).
  assert (Hbits := fun i => packed_BGR_bits r g b i Hr Hg Hb).
  rewrite <- Heq in Hbits.
  split; [exact Heq |].
  split.
  { unfold uint8, in_unsigned in Hr, Hg, Hb. simpl in Hr, Hg, Hb.
    unfold int32, in_signed. simpl. lia. }
  split.
  { intros i Hi. rewrite Hbits by lia.
    destruct (Z.ltb_spec i 8); [reflexivity | lia]. }
  split.
  { intros i Hi. rewrite Hbits by lia.
    destruct (Z.ltb_spec i 8); [lia |].
    destruct (Z.ltb_spec i 16); [reflexivity | lia]. }
  split.
  { intros i Hi. rewrite Hbits by lia.
    destruct (Z.ltb_spec i 8); [lia |].
    destruct (Z.ltb_spec i 16); [lia | reflexivity]. }
  split.
  { intros i Hi. rewrite Hbits by lia.
    destruct (Z.ltb_spec i 8); [lia |].
    destruct (Z.ltb_spec i 16); [lia |].
    apply uint8_high_bits; [assumption | lia]. }
  split.
  { unfold uint8, in_unsigned in Hr, Hg, Hb. simpl in Hr, Hg, Hb. lia. }
  repeat split; reflexivity.
Qed.

Lemma RGB_layout_witness :
  uint8 16 /\ uint8 32 /\ uint8 48
  /\ (RGB 16 32 48 = Z.lor (Z.lor (Z.shiftl 48 16) (Z.shiftl 32 8)) 16
      /\ int32 (RGB 16 32 48)
      /\ (forall i, 0 <= i < 8 -> Z.testbit (RGB 16 32 48) i = Z.testbit 16 i)
      /\ (forall i, 8 <= i < 16 ->
            Z.testbit (RGB 16 32 48) i = Z.testbit 32 (i - 8))
      /\ (forall i, 16 <= i < 24 ->
            Z.testbit (RGB 16 32 48) i = Z.testbit 48 (i - 16))
      /\ (forall i, 24 <= i -> Z.testbit (RGB 16 32 48) i = false)
      /\ 0 <= RGB 16 32 48
      /\ RGB 255 0 0 = 0x000000FF
      /\ RGB 0 255 0 = 0x0000FF00
      /\ RGB 0 0 255 = 0x00FF0000
      /\ RGB 16 32 48 = 0x00302010).
Proof.
  assert (H16 : uint8 16) by (unfold uint8, in_unsigned; simpl; lia).
  assert (H32 : uint8 32) by (unfold uint8, in_unsigned; simpl; lia).
  assert (H48 : uint8 48) by (unfold uint8, in_unsigned; simpl; lia).
  split; [exact H16 |]. split; [exact H32 |]. split; [exact H48 |].
  exact (RGB_layout 16 32 48 H16 H32 H48).
Defined.

(** C7. RGB loses nothing: for channels of 8 bits the red, green and blue
    channels are read back from the packed value with masks and shifts,
    the packed value lies between 0 and 0x00FFFFFF, and two triples that
    differ pack to different values. *)
Theorem RGB_invertible (r g b : Z) :
  uint8 r -> uint8 g -> uint8 b ->
  Z.land (RGB r g b) 0xFF = r
  /\ Z.land (Z.shiftr (RGB r g b) 8) 0xFF = g
  /\ Z.land (Z.shiftr (RGB r g b) 16) 0xFF = b
  /\ 0 <= RGB r g b <= 0x00FFFFFF
  /\ (forall r' g' b' : Z,
        uint8 r' -> uint8 g' -> uint8 b' ->
        (r, g, b) <> (r', g', b') -> RGB r g b <> RGB r' g' b').
Proof.
  intros Hr Hg Hb.
  split; [exact (RGB_red_of r g b Hr Hg Hb) |].
  split; [exact (RGB_green_of r g b Hr Hg Hb) |].
  split; [exact (RGB_blue_of r g b Hr Hg Hb) |].
  split.
  { rewrite RGB_digits by assumption.
    unfold uint8, in_unsigned in Hr, Hg, Hb. simpl in Hr, Hg, Hb. lia. }
  intros r' g' b' Hr' Hg' Hb' Hne Heq. apply Hne.
  pose proof (RGB_red_of r g b Hr Hg Hb) as Er.
  pose proof (RGB_green_of r g b Hr Hg Hb) as Eg.
  pose proof (RGB_blue_of r g b Hr Hg Hb) as Eb.
  rewrite Heq in Er, Eg, Eb.
  rewrite RGB_red_of in Er by assumption.
  rewrite RGB_green_of in Eg by assumption.
  rewrite RGB_blue_of in Eb by assumption.
  congruence.
Qed.

Lemma RGB_invertible_witness :
  uint8 16 /\ uint8 32 /\ uint8 48
  /\ (Z.land (RGB 16 32 48) 0xFF = 16
      /\ Z.land (Z.shiftr (RGB 16 32 48) 8) 0xFF = 32
      /\ Z.land (Z.shiftr (RGB 16 32 48) 16) 0xFF = 48
      /\ 0 <= RGB 16 32 48 <= 0x00FFFFFF
      /\ (forall r' g' b' : Z,
            uint8 r' -> uint8 g' -> uint8 b' ->
            (16, 32, 48) <> (r', g', b') -> RGB 16 32 48 <> RGB r' g' b')).
Proof.
  assert (H16 : uint8 16) by (unfold uint8, in_unsigned; simpl; lia).
  assert (H32 : uint8 32) by (unfold uint8, in_unsigned; simpl; lia).
  assert (H48 : uint8 48) by (unfold uint8, in_unsigned; simpl; lia).
  split; [exact H16 |]. split; [exact H32 |]. split; [exact H48 |].
  exact (RGB_invertible 16 32 48 H16 H32 H48).
Defined.

(** ** DLL search flags *)

Section Flags.

Lemma all_flags_complete (f : DLLSearchFlag) : f ∈ all_flags.
Proof. destruct f; compute_done. Qed.

Lemma non_default_flags_spec (f : DLLSearchFlag) :
  f ∈ non_default_flags <-> f <> FDefault.
Proof.
  split.
  - intros Hin ->.
    exact (bool_decide_unpack (FDefault ∉ non_default_flags) I Hin).
  - intros Hne. destruct f; try congruence;
      compute_done.
Qed.

(** Every flag but the default is the power of two of its bit. *)
Lemma flag_value_pow2 (f : DLLSearchFlag) :
  f <> FDefault -> flag_value f = 2 ^ flag_bit f /\ 0 <= flag_bit f < 32.
Proof. destruct f; intros Hne; try congruence; vm_compute; intuition congruence. Qed.

(** At the bit of a non-default flag, only that flag's value has a one. *)
Lemma flag_value_testbit (a f : DLLSearchFlag) :
  f <> FDefault ->
  Z.testbit (flag_value a) (flag_bit f) = bool_decide (a = f).
Proof.
  intros Hne.
  destruct f; try congruence; destruct a; reflexivity.
Qed.

(** The bit of a non-default flag is set in a combination exactly when
    the flag is one of those combined. *)
Lemma combine_flags_testbit (fs : list DLLSearchFlag) (f : DLLSearchFlag) :
  f <> FDefault ->
  Z.testbit (combine_flags fs) (flag_bit f) = bool_decide (f ∈ fs).
Proof.
  intros Hne. induction fs as [| a fs IH].
  - change (combine_flags []) with 0. rewrite Z.bits_0.
    symmetry. apply bool_decide_eq_false_2, not_elem_of_nil.
  - change (combine_flags (a :: fs))
      with (Z.lor (flag_value a) (combine_flags fs)).
    rewrite Z.lor_spec, IH, flag_value_testbit by assumption.
    destruct (decide (a = f)) as [-> | Hneq].
    + rewrite (bool_decide_eq_true_2 (f = f)) by reflexivity.
      symmetry. apply bool_decide_eq_true_2, elem_of_cons. left. reflexivity.
    + rewrite (bool_decide_eq_false_2 (a = f)) by assumption.
      apply bool_decide_ext. rewrite elem_of_cons.
      split; [intros H; right; exact H | intros [H | H]; [congruence | exact H]].
Qed.

(** Masking with a power of two tests one bit. *)
Lemma land_pow2_testbit (m k : Z) :
  0 <= k -> negb (Z.land m (2 ^ k) =? 0) = Z.testbit m k.
Proof.
  intros Hk.
  destruct (Z.testbit m k) eqn:Hbit.
  - apply negb_true_iff, Z.eqb_neq. intros Hz.
    assert (Hk' : Z.testbit (Z.land m (2 ^ k)) k = true).
    { rewrite Z.land_spec, Hbit, Z.pow2_bits_true by assumption. reflexivity. }
    rewrite Hz, Z.bits_0 in Hk'. discriminate.
  - apply negb_false_iff, Z.eqb_eq. apply Z.bits_inj'. intros i Hi.
    rewrite Z.land_spec, Z.bits_0, Z.pow2_bits_eqb by assumption.
    destruct (Z.eqb_spec k i) as [-> | Hne].
    + rewrite Hbit. reflexivity.
    + apply andb_false_r.
Qed.

Lemma has_flag_spec (fs : list DLLSearchFlag) (f : DLLSearchFlag) :
  f <> FDefault -> has_flag (combine_flags fs) f = bool_decide (f ∈ fs).
Proof.
  intros Hne. unfold has_flag.
  destruct (flag_value_pow2 f Hne) as [-> Hbit].
  rewrite land_pow2_testbit by lia.
  apply combine_flags_testbit. assumption.
Qed.

Lemma combine_flags_uint32 (fs : list DLLSearchFlag) :
  uint32 (combine_flags fs).
Proof.
  unfold uint32, in_unsigned.
  assert (H : 0 <= combine_flags fs /\ Z.log2 (combine_flags fs) < 32).
  { induction fs as [| a fs [IH0 IHl]].
    - vm_compute. intuition congruence.
    - simpl. split.
      + apply Z.lor_nonneg. split; [destruct a; vm_compute; congruence | assumption].
      + rewrite Z.log2_lor by (destruct a; vm_compute; congruence || assumption).
        apply Z.max_lub_lt; [destruct a; vm_compute; reflexivity | assumption]. }
  destruct H as [H0 Hl]. split; [assumption |].
  destruct (Z.eq_dec (combine_flags fs) 0) as [-> | Hnz]; [reflexivity |].
  apply Z.log2_lt_pow2; lia.
Qed.

End Flags.

(** C2, amended to sets of non-default flags. The sixteen DLL-search
    constants have sixteen different values; each of the fifteen
    non-default ones is a single bit of the 32-bit mask, at a position no
    other flag uses; so the or of a set of non-default flags has the bit
    of a flag exactly when that flag was combined, and two sets of
    non-default flags with the same or are the same set. *)
Theorem DLLSearch_flags_combinable :
  length all_flags = 16%nat
  /\ NoDup (flag_value <$> all_flags)
  /\ length non_default_flags = 15%nat
  /\ (forall f, f ∈ non_default_flags ->
        flag_value f = 2 ^ flag_bit f /\ 0 <= flag_bit f < 32)
  /\ NoDup (flag_bit <$> non_default_flags)
  /\ (forall fs, uint32 (combine_flags fs))
  /\ (forall fs f, f ∈ non_default_flags ->
        (has_flag (combine_flags fs) f = true <-> f ∈ fs))
  /\ (forall fs1 fs2,
        combine_flags fs1 = combine_flags fs2 ->
        forall f, f ∈ non_default_flags -> (f ∈ fs1 <-> f ∈ fs2))
  /\ (forall fs1 fs2,
        fs1 ⊆ non_default_flags -> fs2 ⊆ non_default_flags ->
        combine_flags fs1 = combine_flags fs2 ->
        forall f, f ∈ fs1 <-> f ∈ fs2).
Proof.
  split; [reflexivity |].
  split; [compute_done |].
  split; [reflexivity |].
  split.
  { intros f Hf. apply flag_value_pow2, non_default_flags_spec, Hf. }
  split; [compute_done |].
  split; [exact combine_flags_uint32 |].
  split.
  { intros fs f Hf. apply non_default_flags_spec in Hf.
    rewrite has_flag_spec by assumption. apply bool_decide_eq_true. }
  split.
  { intros fs1 fs2 Heq f Hf. apply non_default_flags_spec in Hf.
    assert (E : bool_decide (f ∈ fs1) = bool_decide (f ∈ fs2)).
    { rewrite <- (combine_flags_testbit fs1), <- (combine_flags_testbit fs2)
        by assumption.
      rewrite Heq. reflexivity. }
    split; intros Hin; apply (bool_decide_eq_true_2 _) in Hin.
    - rewrite E in Hin. exact (bool_decide_eq_true_1 _ Hin).
    - rewrite <- E in Hin. exact (bool_decide_eq_true_1 _ Hin). }
  intros fs1 fs2 H1 H2 Heq f.
  assert (Hkey : forall fs, fs ⊆ non_default_flags ->
            (f ∈ fs <-> f <> FDefault /\ Z.testbit (combine_flags fs) (flag_bit f) = true)).
  { intros fs Hsub. split.
    - intros Hin. assert (Hne : f <> FDefault).
      { apply non_default_flags_spec, Hsub, Hin. }
      split; [assumption |].
      rewrite combine_flags_testbit by assumption.
      apply bool_decide_eq_true. assumption.
    - intros [Hne Hbit]. rewrite combine_flags_testbit in Hbit by assumption.
      apply bool_decide_eq_true in Hbit. assumption. }
  rewrite (Hkey fs1 H1), (Hkey fs2 H2), Heq. reflexivity.
Qed.

(** [DLLSearchDefault] sets no bit: or-ing it in changes nothing, which is
    why combinations are read as sets of non-default flags. *)
Lemma combine_flags_default (fs : list DLLSearchFlag) :
  combine_flags (FDefault :: fs) = combine_flags fs.
Proof. reflexivity. Qed.

(** C2, as worded for sets of any of the sixteen constants, fails:
    [DLLSearchDefault] is one of the named constants and or-ing it in
    leaves no trace, so the sets {DLLSearchDefault, DLLSearchAsDataFile}
    and {DLLSearchAsDataFile}, each without repetition, have the same or,
    0x2, and different members. *)
Lemma DLLSearch_default_collision :
  NoDup [FDefault; FAsDataFile]
  /\ NoDup [FAsDataFile]
  /\ combine_flags [FDefault; FAsDataFile] = 0x2
  /\ combine_flags [FAsDataFile] = 0x2
  /\ FDefault ∈ [FDefault; FAsDataFile]
  /\ (FDefault ∉ [FAsDataFile])
  /\ ~ (forall fs1 fs2 : list DLLSearchFlag,
          NoDup fs1 -> NoDup fs2 ->
          combine_flags fs1 = combine_flags fs2 ->
          forall f, f ∈ fs1 <-> f ∈ fs2).
Proof.
  assert (Hin : FDefault ∈ [FDefault; FAsDataFile]) by compute_done.
  assert (Hnin : FDefault ∉ [FAsDataFile]) by compute_done.
  assert (Hd1 : NoDup [FDefault; FAsDataFile]) by compute_done.
  assert (Hd2 : NoDup [FAsDataFile]) by compute_done.
  repeat (split; [assumption || reflexivity |]).
  intros Hall.
  apply Hnin.
  apply (Hall [FDefault; FAsDataFile] [FAsDataFile] Hd1 Hd2 eq_refl FDefault).
  exact Hin.
Qed.

Example combine_flags_example :
  combine_flags [FApplicationDir; FSystem32] = 0xA00
  /\ has_flag 0xA00 FSystem32 = true
  /\ has_flag 0xA00 FUserDirs = false.
Proof. repeat split; reflexivity. Qed.

(** ** Enumerations *)

(** C4. The theme enumeration has exactly three constants, SystemDefault =
    0, Dark = 1 and Light = 2, and the backdrop enumeration exactly five,
    Auto = 0, None = 1, Mica = 2, Acrylic = 3 and Tabbed = 4; within each
    enumeration the values differ pairwise. *)
Theorem enumerations_distinct :
  Theme_constants =
    [("SystemDefault"%string, 0); ("Dark"%string, 1); ("Light"%string, 2)]
  /\ length Theme_constants = 3%nat
  /\ NoDup (snd <$> Theme_constants)
  /\ BackdropType_constants =
       [("Auto"%string, 0); ("None"%string, 1); ("Mica"%string, 2);
        ("Acrylic"%string, 3); ("Tabbed"%string, 4)]
  /\ length BackdropType_constants = 5%nat
  /\ NoDup (snd <$> BackdropType_constants).
Proof.
  split; [reflexivity |].
  split; [reflexivity |].
  split; [compute_done |].
  split; [reflexivity |].
  split; [reflexivity |].
  compute_done.
Qed.

(** ** Allocation *)

Section Heap.

Implicit Types (h : heap) (o : object) (p q : addr).

Lemma new_fresh h : h !! fresh (dom h) = None.
Proof. apply not_elem_of_dom, is_fresh. Qed.

Lemma new_returns o h :
  new o h = Returned (fresh (dom h)) (<[fresh (dom h) := o]> h).
Proof. reflexivity. Qed.

(** An allocation leaves every object that existed where and as it was. *)
Lemma new_frame o h q o' :
  h !! q = Some o' -> (<[fresh (dom h) := o]> h) !! q = Some o'.
Proof.
  intros Hq. rewrite lookup_insert_ne; [assumption |].
  intros Heq. rewrite <- Heq, new_fresh in Hq. discriminate.
Qed.

Lemma new_lookup o h : (<[fresh (dom h) := o]> h) !! fresh (dom h) = Some o.
Proof. apply lookup_insert_eq. Qed.

End Heap.

(** ** The operations on the heap *)

Section Calls.

Implicit Types (h : heap) (p : addr).

Lemma bind_returned {A B : Type} (c : Go A) (k : A -> Go B) h a h' :
  c h = Returned a h' -> (c ≫= k) h = k a h'.
Proof. intros Hc. unfold mbind, Go_bind. rewrite Hc. reflexivity. Qed.

Lemma load_Messages_lookup h p (m : Messages) :
  h !! p = Some (ObjMessages m) -> load_Messages (Some p) h = Returned m h.
Proof. intros Hp. unfold load_Messages. rewrite Hp. reflexivity. Qed.

(** A call of [DefaultMessages] returns an address unused before, in a
    heap extended by one object, the literal. *)
Lemma DefaultMessages_returns h :
  exists p,
    DefaultMessages h = Returned p (<[p := ObjMessages Messages_literal]> h)
    /\ h !! p = None.
Proof.
  exists (fresh (dom h)). split; [apply new_returns | apply new_fresh].
Qed.

Lemma default_catalog_returns h :
  exists p,
    default_catalog h
      = Returned Messages_literal (<[p := ObjMessages Messages_literal]> h).
Proof.
  destruct (DefaultMessages_returns h) as (p & Hcall & _).
  exists p. unfold default_catalog. rewrite (bind_returned _ _ _ _ _ Hcall).
  apply load_Messages_lookup, lookup_insert_eq.
Qed.

Lemma two_catalogs_returns h :
  exists h', two_catalogs h = Returned (Messages_literal, Messages_literal) h'.
Proof.
  destruct (DefaultMessages_returns h) as (p1 & Hd1 & _).
  destruct (DefaultMessages_returns (<[p1 := ObjMessages Messages_literal]> h))
    as (p2 & Hd2 & Hfresh2).
  assert (Hne : p2 <> p1).
  { intros ->. rewrite lookup_insert_eq in Hfresh2. discriminate. }
  set (h2 := <[p2 := ObjMessages Messages_literal]>
               (<[p1 := ObjMessages Messages_literal]> h)) in *.
  assert (H1 : h2 !! p1 = Some (ObjMessages Messages_literal)).
  { unfold h2. rewrite lookup_insert_ne by exact Hne. apply lookup_insert_eq. }
  assert (H2 : h2 !! p2 = Some (ObjMessages Messages_literal)).
  { unfold h2. apply lookup_insert_eq. }
  exists h2. unfold two_catalogs.
  rewrite (bind_returned _ _ _ _ _ Hd1).
  rewrite (bind_returned _ _ _ _ _ Hd2).
  rewrite (bind_returned _ _ _ _ _ (load_Messages_lookup _ _ _ H1)).
  rewrite (bind_returned _ _ _ _ _ (load_Messages_lookup _ _ _ H2)).
  reflexivity.
Qed.

End Calls.

(** C3. The catalog DefaultMessages returns has exactly the eleven named
    string fields InstallationRequired, UpdateRequired,
    MissingRequirements, Webview2NotInstalled, Error, FailedToInstall,
    DownloadPage, PressOKToInstall, ContactAdmin, InvalidFixedWebview2 and
    WebView2ProcessCrash; each holds its fixed English text and none is the
    empty string. *)
Theorem DefaultMessages_catalog (h : heap) :
  exists (p : addr) (h' : heap) (m : Messages),
    DefaultMessages h = Returned p h'
    /\ h' !! p = Some (ObjMessages m)
    /\ length (Messages_fields m) = 11%nat
    /\ Messages_fields m =
         [("InstallationRequired", "The WebView2 runtime is required. Press Ok to download and install. Note: The installer will download silently so please wait.");
          ("UpdateRequired", "The WebView2 runtime needs updating. Press Ok to download and install. Note: The installer will download silently so please wait.");
          ("MissingRequirements", "Missing Requirements");
          ("Webview2NotInstalled", "WebView2 runtime not installed");
          ("Error", "Error");
          ("FailedToInstall", "The runtime failed to install correctly. Please try again.");
          ("DownloadPage", "This application requires the WebView2 runtime. Press OK to open the download page. Minimum version required: ");
          ("PressOKToInstall", "Press Ok to install.");
          ("ContactAdmin", "The WebView2 runtime is required to run this application. Please contact your system administrator.");
          ("InvalidFixedWebview2", "The WebView2 runtime is manually specified, but It is not valid. Check minimum required version and webview2 path.");
          ("WebView2ProcessCrash", "The WebView2 process crashed and the application needs to be restarted.")]%string
    /\ Forall (fun field => field.2 <> EmptyString
                            /\ (0 < String.length field.2)%nat)
         (Messages_fields m).
Proof.
  destruct (DefaultMessages_returns h) as (p & Hcall & _).
  exists p, (<[p := ObjMessages Messages_literal]> h), Messages_literal.
  split; [exact Hcall |].
  split; [apply lookup_insert_eq |].
  split; [reflexivity |].
  split; [reflexivity |].
  unfold Messages_fields, Messages_literal. cbn -[String.length].
  repeat (apply Forall_cons; split;
          [split; [discriminate | cbn; lia] |]).
  apply Forall_nil_2.
Qed.

(** C5. Nothing in the package validates or fails: on channels of 8 bits
    a call of RGB returns an int32 value, a call of DefaultMessages returns
    a pointer to a catalog, and an options value of any content, named by
    a constant or not, is built and stored as it is; no call ends in the
    failure branch. *)
Theorem operations_never_fail (r g b : Z) (o : Options.t) (h : heap) :
  uint8 r -> uint8 g -> uint8 b ->
  (exists c : Z, call_RGB r g b h = Returned c h /\ c = RGB r g b /\ int32 c)
  /\ (exists (p : addr) (h' : heap) (m : Messages),
        DefaultMessages h = Returned p h' /\ h' !! p = Some (ObjMessages m))
  /\ (exists (p : addr) (h' : heap),
        new (ObjOptions o) h = Returned p h' /\ h' !! p = Some (ObjOptions o)).
Proof.
  intros Hr Hg Hb. split; [| split].
  - exists (RGB r g b). split; [reflexivity |]. split; [reflexivity |].
    rewrite RGB_digits by assumption.
    unfold uint8, in_unsigned in Hr, Hg, Hb. simpl in Hr, Hg, Hb.
    unfold int32, in_signed. simpl. lia.
  - destruct (DefaultMessages_returns h) as (p & Hcall & _).
    exists p, (<[p := ObjMessages Messages_literal]> h), Messages_literal.
    split; [exact Hcall | apply lookup_insert_eq].
  - eexists _, _. split; [apply new_returns | apply new_lookup].
Qed.

Lemma operations_never_fail_witness :
  uint8 16 /\ uint8 32 /\ uint8 48
  /\ (exists c : Z,
        call_RGB 16 32 48 ∅ = Returned c ∅ /\ c = RGB 16 32 48 /\ int32 c)
  /\ (exists (p : addr) (h' : heap) (m : Messages),
        DefaultMessages ∅ = Returned p h' /\ h' !! p = Some (ObjMessages m))
  /\ (exists (p : addr) (h' : heap),
        new (ObjOptions unchecked_options) ∅ = Returned p h'
        /\ h' !! p = Some (ObjOptions unchecked_options)).
Proof.
  assert (H16 : uint8 16) by (unfold uint8, in_unsigned; simpl; lia).
  assert (H32 : uint8 32) by (unfold uint8, in_unsigned; simpl; lia).
  assert (H48 : uint8 48) by (unfold uint8, in_unsigned; simpl; lia).
  split; [exact H16 |]. split; [exact H32 |]. split; [exact H48 |].
  exact (operations_never_fail 16 32 48 unchecked_options ∅ H16 H32 H48).
Defined.



(** C8. DefaultMessages is deterministic: from any two heaps the catalogs
    read through the returned pointers are equal, field for field over the
    eleven fields, and so are the catalogs of two calls made one after the
    other. *)
Theorem DefaultMessages_deterministic (h1 h2 : heap) :
  (exists m1 m2 : Messages,
     result (default_catalog h1) = Some m1
     /\ result (default_catalog h2) = Some m2
     /\ length (Messages_fields m1) = 11%nat
     /\ Messages_fields m1 = Messages_fields m2)
  /\ (exists (m1 m2 : Messages) (h' : heap),
        two_catalogs h1 = Returned (m1, m2) h'
        /\ Messages_fields m1 = Messages_fields m2).
Proof.
  split.
  - destruct (default_catalog_returns h1) as (p1 & Hc1).
    destruct (default_catalog_returns h2) as (p2 & Hc2).
    exists Messages_literal, Messages_literal. rewrite Hc1, Hc2.
    repeat split; reflexivity.
  - destruct (two_catalogs_returns h1) as (h' & Hcall).
    exists Messages_literal, Messages_literal, h'.
    split; [exact Hcall | reflexivity].
Qed.

(** * Further properties *)

(** ** RGB as a colour code *)

Lemma channel_uint8 (z : Z) : uint8 (Z.land z 0xFF).
Proof.
  unfold uint8, in_unsigned.
  change 0xFF with (Z.ones 8). rewrite Z.land_ones by lia.
  apply Z.mod_pos_bound. reflexivity.
Qed.

(** X1. Unpacking any integer into its three channels and packing them again
    keeps its low 24 bits and drops the rest: a colour between 0 and
    0x00FFFFFF comes back as it was, and the high byte of any other int32
    value is lost. *)
Theorem RGB_repack (col : Z) :
  uint8 (red_of col) /\ uint8 (green_of col) /\ uint8 (blue_of col)
  /\ RGB (red_of col) (green_of col) (blue_of col) = Z.land col 0xFFFFFF
  /\ (0 <= col <= 0xFFFFFF ->
      RGB (red_of col) (green_of col) (blue_of col) = col).
Proof.
  assert (Hr : uint8 (red_of col)) by apply channel_uint8.
  assert (Hg : uint8 (green_of col)) by apply channel_uint8.
  assert (Hb : uint8 (blue_of col)) by apply channel_uint8.
  assert (Hpack : RGB (red_of col) (green_of col) (blue_of col)
                  = Z.land col 0xFFFFFF).
  { rewrite RGB_digits by assumption.
    unfold red_of, green_of, blue_of.
    change 0xFF with (Z.ones 8). change 0xFFFFFF with (Z.ones 24).
    rewrite !Z.land_ones, !Z.shiftr_div_pow2 by lia.
    change (2 ^ 8) with 256. change (2 ^ 16) with 65536.
    change (2 ^ 24) with 16777216.
    pose proof (Z.div_mod col 256 ltac:(lia)) as E1.
    pose proof (Z.mod_pos_bound col 256 ltac:(lia)) as B1.
    pose proof (Z.div_mod (col / 256) 256 ltac:(lia)) as E2.
    pose proof (Z.mod_pos_bound (col / 256) 256 ltac:(lia)) as B2.
    pose proof (Z.mod_pos_bound (col / 65536) 256 ltac:(lia)) as B3.
    pose proof (Z.div_mod (col / 65536) 256 ltac:(lia)) as E3.
    assert (E4 : col / 65536 = col / 256 / 256)
      by (rewrite Z.div_div by lia; reflexivity).
    apply (Z.mod_unique_pos _ _ (col / 65536 / 256)); lia. }
  repeat (split; [assumption |]).
  intros Hcol. rewrite Hpack.
  change 0xFFFFFF with (Z.ones 24). rewrite Z.land_ones by lia.
  apply Z.mod_small. change (2 ^ 24) with 16777216. lia.
Qed.

(** X2. Packed colours compare by blue first, then green, then red. *)
Theorem RGB_order (r g b r' g' b' : Z) :
  uint8 r -> uint8 g -> uint8 b -> uint8 r' -> uint8 g' -> uint8 b' ->
  (RGB r g b < RGB r' g' b'
   <-> b < b' \/ (b = b' /\ (g < g' \/ (g = g' /\ r < r')))).
Proof.
  intros Hr Hg Hb Hr' Hg' Hb'.
  rewrite !RGB_digits by assumption.
  unfold uint8, in_unsigned in *. simpl in *. lia.
Qed.

Lemma RGB_order_witness :
  uint8 255 /\ uint8 255 /\ uint8 0 /\ uint8 0 /\ uint8 0 /\ uint8 1
  /\ (RGB 255 255 0 < RGB 0 0 1
      <-> 0 < 1 \/ (0 = 1 /\ (255 < 0 \/ (255 = 0 /\ 255 < 0)))).
Proof.
  assert (H0 : uint8 0) by (unfold uint8, in_unsigned; simpl; lia).
  assert (H1 : uint8 1) by (unfold uint8, in_unsigned; simpl; lia).
  assert (H255 : uint8 255) by (unfold uint8, in_unsigned; simpl; lia).
  repeat (split; [assumption |]).
  exact (RGB_order 255 255 0 0 0 1 H255 H255 H0 H0 H0 H1).
Defined.

(** ** Masks of DLL search flags *)

Section Masks.

Implicit Types (fs : list DLLSearchFlag) (f g : DLLSearchFlag) (m : Z).

(** A bit of a combination is set exactly when the value of one of the
    combined flags has it. *)
Lemma combine_flags_bits fs (i : Z) :
  Z.testbit (combine_flags fs) i
  = existsb (fun f => Z.testbit (flag_value f) i) fs.
Proof.
  induction fs as [| a fs IH].
  - change (combine_flags []) with 0. apply Z.bits_0.
  - change (combine_flags (a :: fs))
      with (Z.lor (flag_value a) (combine_flags fs)).
    rewrite Z.lor_spec, IH. reflexivity.
Qed.

Lemma existsb_elements {A : Type} (P : A -> bool) (l1 l2 : list A) :
  (forall x, x ∈ l1 -> x ∈ l2) -> existsb P l1 = true -> existsb P l2 = true.
Proof.
  intros Hsub H. apply existsb_exists in H as (x & Hx & HP).
  apply existsb_exists. exists x. split; [| exact HP].
  apply list_elem_of_In, Hsub, list_elem_of_In, Hx.
Qed.

(** For a mask and a non-default flag, the test of the package's masks is
    the test of one bit. *)
Lemma has_flag_testbit m f :
  f <> FDefault -> has_flag m f = Z.testbit m (flag_bit f).
Proof.
  intros Hne. unfold has_flag.
  destruct (flag_value_pow2 f Hne) as [-> Hbit].
  apply land_pow2_testbit. lia.
Qed.

(** Every bit of every flag lies in 0xFFFB. *)
Lemma flag_value_named f : Z.ldiff (flag_value f) 0xFFFB = 0.
Proof. destruct f; reflexivity. Qed.

Lemma combine_flags_named fs : Z.ldiff (combine_flags fs) 0xFFFB = 0.
Proof.
  apply Z.bits_inj'. intros i Hi.
  rewrite Z.ldiff_spec, Z.bits_0, combine_flags_bits.
  induction fs as [| a fs IH]; [reflexivity |].
  simpl existsb. rewrite andb_orb_distrib_l, IH, orb_false_r.
  rewrite <- Z.ldiff_spec, flag_value_named. apply Z.bits_0.
Qed.

Lemma combine_flags_nonneg fs : 0 <= combine_flags fs.
Proof.
  induction fs as [| a fs IH]; [vm_compute; congruence |].
  change (combine_flags (a :: fs))
    with (Z.lor (flag_value a) (combine_flags fs)).
  apply Z.lor_nonneg. split; [destruct a; vm_compute; congruence | exact IH].
Qed.

(** A flag that is not among those combined shares no bit with the
    combination. *)
Lemma combine_flags_disjoint fs f :
  f ∉ fs -> Z.land (flag_value f) (combine_flags fs) = 0.
Proof.
  intros Hnin. destruct (decide (f = FDefault)) as [-> | Hne].
  - apply Z.land_0_l.
  - pose proof (combine_flags_testbit fs f Hne) as Hbit.
    rewrite (bool_decide_eq_false_2 _ Hnin) in Hbit.
    rewrite <- has_flag_testbit in Hbit by exact Hne.
    unfold has_flag in Hbit. apply negb_false_iff, Z.eqb_eq in Hbit.
    rewrite Z.land_comm. exact Hbit.
Qed.

End Masks.

(** X3. Setting a flag in any mask, named bits or not, makes its test succeed
    and leaves the test of every other flag as it was; clearing it makes
    its test fail and leaves the others likewise. *)
Theorem flag_set_clear_test (m : Z) (f g : DLLSearchFlag) :
  f <> FDefault -> g <> FDefault ->
  has_flag (set_flag m f) g = bool_decide (f = g) || has_flag m g
  /\ has_flag (clear_flag m f) g = negb (bool_decide (f = g)) && has_flag m g.
Proof.
  intros Hf Hg. unfold set_flag, clear_flag.
  rewrite !has_flag_testbit by exact Hg.
  rewrite Z.lor_spec, Z.ldiff_spec, flag_value_testbit by exact Hg.
  split; [apply orb_comm | apply andb_comm].
Qed.

Lemma flag_set_clear_test_witness :
  FSystem32 <> FDefault /\ FUserDirs <> FDefault
  /\ (has_flag (set_flag 0x80000004 FSystem32) FUserDirs
      = bool_decide (FSystem32 = FUserDirs) || has_flag 0x80000004 FUserDirs
      /\ has_flag (clear_flag 0x80000004 FSystem32) FUserDirs
         = negb (bool_decide (FSystem32 = FUserDirs))
           && has_flag 0x80000004 FUserDirs).
Proof.
  assert (H1 : FSystem32 <> FDefault) by discriminate.
  assert (H2 : FUserDirs <> FDefault) by discriminate.
  split; [exact H1 |]. split; [exact H2 |].
  exact (flag_set_clear_test 0x80000004 FSystem32 FUserDirs H1 H2).
Defined.

(** X4. The or of a list of flags depends on which flags occur in it and on
    nothing else: order and repetition do not matter. *)
Theorem combine_flags_elements (fs1 fs2 : list DLLSearchFlag) :
  (forall f, f ∈ fs1 <-> f ∈ fs2) -> combine_flags fs1 = combine_flags fs2.
Proof.
  intros Hsame. apply Z.bits_inj'. intros i _.
  rewrite !combine_flags_bits.
  apply eq_true_iff_eq. split; apply existsb_elements; intros x; apply Hsame.
Qed.

Lemma combine_flags_elements_witness :
  (forall f, f ∈ [FSystem32; FApplicationDir; FSystem32]
             <-> f ∈ [FApplicationDir; FSystem32])
  /\ combine_flags [FSystem32; FApplicationDir; FSystem32]
     = combine_flags [FApplicationDir; FSystem32].
Proof.
  assert (H : forall f, f ∈ [FSystem32; FApplicationDir; FSystem32]
                        <-> f ∈ [FApplicationDir; FSystem32]).
  { intros f. destruct f; compute_done. }
  split; [exact H |].
  exact (combine_flags_elements _ _ H).
Defined.

(** X5. Combining the flags of two lists gives the or of the two
    combinations. *)
Theorem combine_flags_app (fs1 fs2 : list DLLSearchFlag) :
  combine_flags (fs1 ++ fs2) = Z.lor (combine_flags fs1) (combine_flags fs2).
Proof.
  induction fs1 as [| a fs1 IH]; [reflexivity |].
  change (combine_flags ((a :: fs1) ++ fs2))
    with (Z.lor (flag_value a) (combine_flags (fs1 ++ fs2))).
  change (combine_flags (a :: fs1))
    with (Z.lor (flag_value a) (combine_flags fs1)).
  rewrite IH. apply Z.lor_assoc.
Qed.

(** X6. No combination of the named flags sets bit 2 or any bit from 16 up:
    every combination lies between 0 and 0xFFFB, the combination of all
    sixteen constants, so a mask such as 0x4 is not the or of named
    flags. *)
Theorem combine_flags_named_bits :
  (forall fs, Z.testbit (combine_flags fs) 2 = false)
  /\ (forall fs i, 16 <= i -> Z.testbit (combine_flags fs) i = false)
  /\ (forall fs, 0 <= combine_flags fs <= 0xFFFB)
  /\ combine_flags all_flags = 0xFFFB
  /\ (forall fs, combine_flags fs <> 0x4).
Proof.
  assert (Hbit : forall fs i, 0 <= i -> Z.testbit 0xFFFB i = false ->
                   Z.testbit (combine_flags fs) i = false).
  { intros fs i Hi Hmask.
    pose proof (Z.ldiff_spec (combine_flags fs) 0xFFFB i) as H.
    rewrite combine_flags_named, Z.bits_0, Hmask in H.
    simpl in H. rewrite andb_true_r in H. symmetry. exact H. }
  assert (H2 : forall fs, Z.testbit (combine_flags fs) 2 = false).
  { intros fs. apply Hbit; [lia | reflexivity]. }
  split; [exact H2 |].
  split.
  { intros fs i Hi. apply Hbit; [lia |].
    apply Z.bits_above_log2; [lia |]. change (Z.log2 0xFFFB) with 15. lia. }
  split.
  { intros fs. split; [apply combine_flags_nonneg |].
    pose proof (Z.sub_nocarry_ldiff 0xFFFB (combine_flags fs)
                  (combine_flags_named fs)) as Hsub.
    assert (0 <= Z.ldiff 0xFFFB (combine_flags fs))
      by (apply Z.ldiff_nonneg; left; lia).
    lia. }
  split; [reflexivity |].
  intros fs Heq. specialize (H2 fs). rewrite Heq in H2. discriminate.
Qed.

(** X7. Adding the values of flags gives their or when no flag is listed
    twice. *)
Theorem sum_flags_combine (fs : list DLLSearchFlag) :
  NoDup fs -> sum_flags fs = combine_flags fs.
Proof.
  induction 1 as [| a fs Hnin Hnd IH]; [reflexivity |].
  change (sum_flags (a :: fs)) with (flag_value a + sum_flags fs).
  change (combine_flags (a :: fs))
    with (Z.lor (flag_value a) (combine_flags fs)).
  rewrite IH.
  pose proof (combine_flags_disjoint fs a Hnin) as Hdisj.
  rewrite <- Z.lxor_lor by exact Hdisj.
  apply Z.add_nocarry_lxor. exact Hdisj.
Qed.

Lemma sum_flags_combine_witness :
  NoDup [FApplicationDir; FSystem32]
  /\ sum_flags [FApplicationDir; FSystem32]
     = combine_flags [FApplicationDir; FSystem32].
Proof.
  assert (H : NoDup [FApplicationDir; FSystem32])
    by compute_done.
  split; [exact H |].
  exact (sum_flags_combine _ H).
Defined.

(** ** Catalogs are not shared *)

Section Overrides.

Implicit Types (h : heap) (p : addr) (m : Messages).

Lemma store_Messages_lookup h p m0 m :
  h !! p = Some (ObjMessages m0) ->
  store_Messages (Some p) m h = Returned tt (<[p := ObjMessages m]> h).
Proof. intros Hp. unfold store_Messages. rewrite Hp. reflexivity. Qed.

Lemma set_Error_lookup h p m (s : string) :
  h !! p = Some (ObjMessages m) ->
  set_Error (Some p) s h
  = Returned tt (<[p := ObjMessages (with_Error m s)]> h).
Proof.
  intros Hp. unfold set_Error.
  rewrite (bind_returned _ _ _ _ _ (load_Messages_lookup _ _ _ Hp)).
  apply (store_Messages_lookup _ _ m). exact Hp.
Qed.

End Overrides.

(** X8. Every call of DefaultMessages gives a catalog of its own: after two
    calls and an override of the message Error through the first pointer,
    the first catalog has the new text in that field and the default text
    in the ten others, while the second catalog and the catalog of a third
    call hold all eleven default texts; the three pointers differ and the
    objects that were on the heap before are as they were. *)
Theorem catalogs_not_shared (s : string) (h : heap) :
  exists (p1 p2 p3 : addr) (m1 : Messages) (h' : heap),
    override_one s h
    = Returned (p1, p2, p3, m1, Messages_literal, Messages_literal) h'
    /\ p1 <> p2 /\ p1 <> p3 /\ p2 <> p3
    /\ Messages_fields m1
       = <[4%nat := ("Error"%string, s)]> (Messages_fields Messages_literal)
    /\ h' !! p1 = Some (ObjMessages m1)
    /\ h' !! p2 = Some (ObjMessages Messages_literal)
    /\ h' !! p3 = Some (ObjMessages Messages_literal)
    /\ (forall (q : addr) (o : object), h !! q = Some o -> h' !! q = Some o).
Proof.
  destruct (DefaultMessages_returns h) as (p1 & Hd1 & Hf1).
  set (h1 := <[p1 := ObjMessages Messages_literal]> h) in *.
  destruct (DefaultMessages_returns h1) as (p2 & Hd2 & Hf2).
  set (h2 := <[p2 := ObjMessages Messages_literal]> h1) in *.
  assert (H12 : p1 <> p2).
  { intros <-. unfold h1 in Hf2. rewrite lookup_insert_eq in Hf2. discriminate. }
  assert (Hl1 : h2 !! p1 = Some (ObjMessages Messages_literal)).
  { unfold h2, h1. rewrite lookup_insert_ne by congruence.
    apply lookup_insert_eq. }
  pose proof (set_Error_lookup h2 p1 Messages_literal s Hl1) as Hset.
  set (m1 := with_Error Messages_literal s) in *.
  set (h3 := <[p1 := ObjMessages m1]> h2) in *.
  destruct (DefaultMessages_returns h3) as (p3 & Hd3 & Hf3).
  set (h4 := <[p3 := ObjMessages Messages_literal]> h3) in *.
  assert (H13 : p1 <> p3).
  { intros <-. unfold h3 in Hf3. rewrite lookup_insert_eq in Hf3. discriminate. }
  assert (H23 : p2 <> p3).
  { intros <-. unfold h3, h2 in Hf3.
    rewrite lookup_insert_ne, lookup_insert_eq in Hf3 by congruence.
    discriminate. }
  assert (R1 : h4 !! p1 = Some (ObjMessages m1)).
  { unfold h4, h3. rewrite lookup_insert_ne by congruence.
    apply lookup_insert_eq. }
  assert (R2 : h4 !! p2 = Some (ObjMessages Messages_literal)).
  { unfold h4, h3, h2. rewrite !lookup_insert_ne by congruence.
    apply lookup_insert_eq. }
  assert (R3 : h4 !! p3 = Some (ObjMessages Messages_literal)).
  { unfold h4. apply lookup_insert_eq. }
  exists p1, p2, p3, m1, h4.
  split.
  { unfold override_one.
    rewrite (bind_returned _ _ _ _ _ Hd1).
    rewrite (bind_returned _ _ _ _ _ Hd2).
    rewrite (bind_returned _ _ _ _ _ Hset).
    rewrite (bind_returned _ _ _ _ _ Hd3).
    rewrite (bind_returned _ _ _ _ _ (load_Messages_lookup _ _ _ R1)).
    rewrite (bind_returned _ _ _ _ _ (load_Messages_lookup _ _ _ R2)).
    rewrite (bind_returned _ _ _ _ _ (load_Messages_lookup _ _ _ R3)).
    reflexivity. }
  repeat (split; [assumption || reflexivity |]).
  intros q o Hq.
  assert (q <> p1) by (intros ->; congruence).
  assert (q <> p2).
  { intros ->. unfold h1 in Hf2. rewrite lookup_insert_ne in Hf2 by congruence.
    congruence. }
  assert (q <> p3).
  { intros ->. unfold h3, h2, h1 in Hf3.
    rewrite !lookup_insert_ne in Hf3 by congruence. congruence. }
  unfold h4, h3, h2, h1. rewrite !lookup_insert_ne by congruence. exact Hq.
Qed.
